(** * A shallow embedding of [analytics_mcp/client.py]

    The program is a command-line chat client: [main] owns the turn list
    [history], and the closure [ask] performs one exchange with the remote
    service by iterating over the events of a stream supplied by the client
    library.  The client library, the terminal and the keyboard are the
    environment: each exchange is described by a [Script] (what the library
    does when the stream is opened, iterated, asked for its final response
    and released), and the keyboard by a list of [Prompt] results. *)

From Stdlib Require Import List String Ascii NArith ZArith Bool Lia.
Import ListNotations.
Local Open Scope string_scope.
Local Open Scope list_scope.
#[local] Set Warnings "-register-all".


(** ** Text

    A Python [str] is a sequence of Unicode code points. *)

Definition pystr := list N.

Definition str (s : string) : pystr :=
  map N_of_ascii (list_ascii_of_string s).

Fixpoint pystr_eqb (a b : pystr) : bool :=
  match a, b with
  | [], [] => true
  | x :: a', y :: b' => N.eqb x y && pystr_eqb a' b'
  | _, _ => false
  end.

(** [str.isspace] on one code point (the table of CPython's
    [_PyUnicode_IsWhitespace]). *)
Definition isspace (c : N) : bool :=
  (N.leb 9 c && N.leb c 13)
  || (N.leb 28 c && N.leb c 32)
  || N.eqb c 133 || N.eqb c 160 || N.eqb c 5760
  || (N.leb 8192 c && N.leb c 8202)
  || N.eqb c 8232 || N.eqb c 8233 || N.eqb c 8239 || N.eqb c 8287
  || N.eqb c 12288.

Fixpoint lstrip (s : pystr) : pystr :=
  match s with
  | [] => []
  | c :: r => if isspace c then lstrip r else s
  end.

Definition rstrip (s : pystr) : pystr := rev (lstrip (rev s)).

(** [s.strip()] *)
Definition strip (s : pystr) : pystr := rstrip (lstrip s).

(** Standard output is a UTF-8 text stream with the [strict] error
    handler, CPython's default in a UTF-8 locale: writing text raises
    [UnicodeEncodeError] exactly when the text holds a surrogate code
    point (U+D800 to U+DFFF). *)
Definition encodable_char (c : N) : bool :=
  negb (N.leb 55296 c && N.leb c 57343).

Definition encodable (s : pystr) : bool := forallb encodable_char s.

(** ** ANSI constants *)

Definition ESC : string := String (ascii_of_nat 27) EmptyString.
Definition RESET : string := ESC ++ "[0m".
Definition DIM : string := ESC ++ "[2m".
Definition BOLD : string := ESC ++ "[1m".
Definition FG_GREEN : string := ESC ++ "[32m".
Definition FG_CYAN : string := ESC ++ "[36m".
Definition FG_YELLOW : string := ESC ++ "[33m".
Definition FG_RED : string := ESC ++ "[31m".
Definition FG_BLUE : string := ESC ++ "[34m".

(** ** Python values carried by events

    Attribute values of the objects the library yields.  [PObj] is any
    other object, given by its attributes; it is not JSON serialisable. *)

Inductive pyval : Type :=
| PNone
| PBool (b : bool)
| PInt (n : Z)
| PStr (s : pystr)
| PList (l : list pyval)
| PDict (l : list (pystr * pyval))
| PObj (attrs : list (string * pyval)).

(** Truth value of an object, as [if x:] tests it. *)
Definition truthy (v : pyval) : bool :=
  match v with
  | PNone => false
  | PBool b => b
  | PInt n => negb (Z.eqb n 0)
  | PStr s => match s with [] => false | _ => true end
  | PList l => match l with [] => false | _ => true end
  | PDict l => match l with [] => false | _ => true end
  | PObj _ => true
  end.

(** [json.dumps] accepts the value (it raises [TypeError] otherwise). *)
Fixpoint serialisable (v : pyval) : bool :=
  match v with
  | PList l => forallb serialisable l
  | PDict l => forallb (fun kv => serialisable (snd kv)) l
  | PObj _ => false
  | _ => true
  end.

(** [print(pretty_json(v))] can be encoded: with [ensure_ascii=False]
    the strings and keys of [v] are written as they are. *)
Fixpoint json_encodable (v : pyval) : bool :=
  match v with
  | PStr s => encodable s
  | PList l => forallb json_encodable l
  | PDict l => forallb (fun kv => encodable (fst kv) && json_encodable (snd kv)) l
  | _ => true
  end.

(** [str(v)] can be encoded: a string is written as it is; numbers,
    [None] and booleans give ASCII text, lists and dictionaries show their
    strings through [repr], which escapes surrogates, and so does the
    default text of any other object. *)
Definition printable_value (v : pyval) : bool :=
  match v with
  | PStr s => encodable s
  | _ => true
  end.

(** [t == "literal"] *)
Definition eq_str (t : pyval) (lit : string) : bool :=
  match t with
  | PStr s => pystr_eqb s (str lit)
  | _ => false
  end.

Fixpoint assoc {A : Type} (name : string) (l : list (string * A)) : option A :=
  match l with
  | [] => None
  | (k, v) :: r => if String.eqb k name then Some v else assoc name r
  end.

(** ** Exceptions

    The exceptions raised by the client library, by [input], by the
    terminal and by the event handlers.  [KeyboardInterrupt] is the user
    interrupt.  [LibraryError msg] is any other instance of [Exception],
    with [str(e) = msg]; [BaseError cls msg] is an instance of
    [BaseException] that is neither an [Exception] nor the user interrupt
    ([SystemExit], [GeneratorExit], ...). *)

Inductive exn : Type :=
| KeyboardInterrupt
| AttributeError (name : string)
| TypeError
| EOFError
| UnicodeEncodeError
| LibraryError (msg : pystr)
| BaseError (cls : string) (msg : pystr).

(** [isinstance(e, Exception)] *)
Definition is_Exception (e : exn) : bool :=
  match e with
  | KeyboardInterrupt => false
  | BaseError _ _ => false
  | _ => true
  end.

(** [str(e)] can be encoded.  The messages of [AttributeError],
    [TypeError] and [UnicodeEncodeError] are ASCII text around a class or
    attribute name (the offending character is shown escaped), and that of
    [EOFError] is empty. *)
Definition printable_exn (e : exn) : bool :=
  match e with
  | LibraryError msg => encodable msg
  | BaseError _ msg => encodable msg
  | _ => true
  end.

(** ** Terminal output

    The calls that write to the terminal, in order.  [OBar] and [OKv] are
    calls of the helpers [bar] and [kv]; [OJson v] is
    [print(pretty_json(v))]; [OWrite] is [sys.stdout.write]; [OInput] is the
    prompt written by [input]; [OExn e] is [print(f"{FG_RED}{e}{RESET}")]. *)

Inductive Out : Type :=
| OBar (title : string) (color : string)
| OKv (label : string) (value : pyval) (color_label : string)
| OPrint (value : pyval) (end_ : pystr)
| OJson (v : pyval)
| OWrite (s : pystr)
| OInput (prompt : pystr)
| OExn (e : exn).

(** A computation that writes to the terminal and then returns or raises. *)
Definition IO (A : Type) : Type := list Out * (exn + A).

Definition ret {A : Type} (a : A) : IO A := ([], inr a).
Definition raise {A : Type} (e : exn) : IO A := ([], inl e).
Definition emit (o : Out) : IO unit := ([o], inr tt).

Definition bind {A B : Type} (c : IO A) (k : A -> IO B) : IO B :=
  match c with
  | (o, inl e) => (o, inl e)
  | (o, inr a) => let (o', r) := k a in (o ++ o', r)
  end.

Notation "x <- c ;; k" := (bind c (fun x => k))
  (at level 61, c at next level, right associativity).
Notation "c ;; k" := (bind c (fun _ => k))
  (at level 61, right associativity).

Definition when (b : bool) (c : IO unit) : IO unit :=
  if b then c else ret tt.

(** ** Events *)

(** An event object, by its attributes. *)
Definition Event := list (string * pyval).

(** [getattr(event, name, None)] *)
Definition getattr_or_none (event : Event) (name : string) : pyval :=
  match assoc name event with
  | Some v => v
  | None => PNone
  end.

(** [event.name] *)
Definition getattr (event : Event) (name : string) : IO pyval :=
  match assoc name event with
  | Some v => ret v
  | None => raise (AttributeError name)
  end.

(** [v.name] for an attribute value [v] *)
Definition getattr_val (v : pyval) (name : string) : IO pyval :=
  match v with
  | PObj attrs => getattr attrs name
  | _ => raise (AttributeError name)
  end.

(** [sys.stdout.write(v)] *)
Definition stdout_write (v : pyval) : IO unit :=
  match v with
  | PStr s => if encodable s then emit (OWrite s) else raise UnicodeEncodeError
  | _ => raise TypeError
  end.

(** [print(pretty_json(v))]: [json.dumps] raises [TypeError] on a value it
    cannot serialise, and [print] raises on text it cannot encode. *)
Definition print_json (v : pyval) : IO unit :=
  if serialisable v then
    if json_encodable v then emit (OJson v) else raise UnicodeEncodeError
  else raise TypeError.

(** [kv(label, value, color_label)] *)
Definition kv (label : string) (value : pyval) (color_label : string)
    : IO unit :=
  if printable_value value then emit (OKv label value color_label)
  else raise UnicodeEncodeError.

(** [print(value, end=end_)] *)
Definition print_value (value : pyval) (end_ : pystr) : IO unit :=
  if printable_value value then emit (OPrint value end_)
  else raise UnicodeEncodeError.

Inductive Ctl : Type := Continue | Break.

(** The branches of the [if]/[elif] chain in the loop of [ask], in the
    order of the source. *)

(** [t == "response.output_text.delta"] *)
Definition on_text_delta (event : Event) : IO Ctl :=
  d <- getattr event "delta" ;;
  stdout_write d ;;
  ret Continue.

(** [t == "response.output_text.done"]: [print("", end="")] *)
Definition on_text_done : IO Ctl :=
  emit (OPrint (PStr []) []) ;;
  ret Continue.

(** [args.trace and t == "response.tool_call.begin"] *)
Definition on_tool_begin (event : Event) : IO Ctl :=
  emit (OBar "Tool Call Begin" FG_YELLOW) ;;
  tool <- getattr event "tool" ;;
  name <- getattr_val tool "name" ;;
  kv "tool" name FG_YELLOW ;;
  when (truthy (getattr_or_none event "call_id"))
       (kv "call_id" (getattr_or_none event "call_id") FG_YELLOW) ;;
  when (truthy (getattr_or_none event "args"))
       (print_json (getattr_or_none event "args")) ;;
  ret Continue.

(** [args.trace and t == "response.tool_call.delta"] *)
Definition on_tool_delta (event : Event) : IO Ctl :=
  when (truthy (getattr_or_none event "args_delta"))
       (kv "args_delta" (PStr []) FG_YELLOW ;;
        print_json (getattr_or_none event "args_delta")) ;;
  ret Continue.

(** [args.trace and t == "response.tool_call.output"] *)
Definition on_tool_output (event : Event) : IO Ctl :=
  emit (OBar "Tool Output" FG_BLUE) ;;
  when (truthy (getattr_or_none event "output_text"))
       (s <- getattr event "is_streaming" ;;
        print_value (getattr_or_none event "output_text")
                    (if truthy s then [] else [10%N])) ;;
  when (truthy (getattr_or_none event "output_image"))
       (kv "output_image" (PStr (str "[binary image]")) FG_BLUE) ;;
  ret Continue.

(** [args.trace and t == "response.tool_call.completed"] *)
Definition on_tool_completed (event : Event) : IO Ctl :=
  emit (OBar "Tool Call Completed" FG_YELLOW) ;;
  when (truthy (getattr_or_none event "result"))
       (print_json (getattr_or_none event "result")) ;;
  ret Continue.

(** [t == "response.error"] *)
Definition on_error (event : Event) : IO Ctl :=
  emit (OBar "Error" FG_RED) ;;
  err <- getattr event "error" ;;
  print_json (PDict [(str "error", err)]) ;;
  ret Break.

(** [t = getattr(event, "type", None)] *)
Definition event_type (event : Event) : pyval :=
  getattr_or_none event "type".

(** The body of [for event in stream:] in [ask]. *)
Definition handle_event (trace : bool) (event : Event) : IO Ctl :=
  let t := event_type event in
  if eq_str t "response.output_text.delta" then on_text_delta event
  else if eq_str t "response.output_text.done" then on_text_done
  else if trace && eq_str t "response.tool_call.begin" then on_tool_begin event
  else if trace && eq_str t "response.tool_call.delta" then on_tool_delta event
  else if trace && eq_str t "response.tool_call.output" then
    on_tool_output event
  else if trace && eq_str t "response.tool_call.completed" then
    on_tool_completed event
  else if eq_str t "response.error" then on_error event
  else ret Continue.

(** ** Turns and requests *)

(** One element of a turn's ["content"] list. *)
Record Content : Type := { c_type : string; c_text : pystr }.

(** One element of [history]. *)
Record Turn : Type := { role : string; content : list Content }.

Definition system_text : pystr :=
  str "You are a helpful assistant in a CLI. "
  ++ str "When appropriate, include a very brief section titled "
  ++ str "'Reasoning (brief):' with 1" ++ [8211%N]
  ++ str "2 short sentences that summarize your plan" ++ [8212%N]
  ++ str "do not reveal chain-of-thought or step-by-step reasoning.".

Definition system_turn : Turn :=
  {| role := "system";
     content := [ {| c_type := "input_text"; c_text := system_text |} ] |}.

Definition user_turn (user_text : pystr) : Turn :=
  {| role := "user";
     content := [ {| c_type := "input_text"; c_text := user_text |} ] |}.

Definition assistant_turn (reply : pystr) : Turn :=
  {| role := "assistant";
     content := [ {| c_type := "output_text"; c_text := reply |} ] |}.

(** A tool descriptor of the request. *)
Record Tool : Type :=
  { t_type : pystr; server_label : pystr; server_url : pystr;
    require_approval : pystr }.

Definition mcp_tool : Tool :=
  {| t_type := str "mcp";
     server_label := str "google-analytics-mcp";
     server_url :=
       str "https://tom-nominated-beneficial-joining.trycloudflare.com/mcp/";
     require_approval := str "never" |}.

(** The arguments of one call of [client.responses.stream]. *)
Record Request : Type :=
  { r_model : pystr; r_input : list Turn; r_tools : option (list Tool) }.

(** The parsed command line. *)
Record Args : Type :=
  { message : option pystr; model : pystr; no_tools : bool; trace : bool }.

(** [tools] of [main] *)
Definition tools_of (args : Args) : option (list Tool) :=
  if no_tools args then None else Some [mcp_tool].

(** [tools or None] *)
Definition or_none {A : Type} (t : option (list A)) : option (list A) :=
  match t with
  | Some (x :: l) => Some (x :: l)
  | _ => None
  end.

(** ** The stream of one exchange *)

(** What the iterator does when asked for its next element: it yields an
    event or raises; at the end of the list it is exhausted. *)
Inductive Item : Type :=
| Yield (event : Event)
| Throw (e : exn).

(** The object returned by [get_final_response]; [output_text] is [None]
    when the attribute holds [None]. *)
Record Response : Type := { output_text : option pystr }.

(** What the client library does in one exchange: opening the stream
    ([sc_open] is the exception raised by [client.responses.stream] or on
    entering the [with] block, if any), the elements of the iteration, and
    the result of [get_final_response].  Leaving the [with] block releases
    the connection. *)
Record Script : Type :=
  { sc_open : option exn;
    sc_items : list Item;
    sc_final : exn + Response }.

Inductive LoopExit : Type :=
| Exhausted
| Broke
| Raised (e : exn).

(** Outcome of the [for] loop: what was written, how the loop was left and
    the elements never taken from the iterator. *)
Record LoopResult : Type :=
  { lr_out : list Out; lr_exit : LoopExit; lr_rest : list Item }.

(** [for event in stream: ...] *)
Fixpoint event_loop (trace : bool) (items : list Item) : LoopResult :=
  match items with
  | [] => {| lr_out := []; lr_exit := Exhausted; lr_rest := [] |}
  | Throw e :: rest => {| lr_out := []; lr_exit := Raised e; lr_rest := rest |}
  | Yield event :: rest =>
      match handle_event trace event with
      | (o, inl e) => {| lr_out := o; lr_exit := Raised e; lr_rest := rest |}
      | (o, inr Break) => {| lr_out := o; lr_exit := Broke; lr_rest := rest |}
      | (o, inr Continue) =>
          let r := event_loop trace rest in
          {| lr_out := o ++ lr_out r; lr_exit := lr_exit r;
             lr_rest := lr_rest r |}
      end
  end.

(** The body of the [try] statement of [ask]: the [with] block with the
    loop and [resp = stream.get_final_response()]. *)
Definition try_body (trace : bool) (sc : Script) : IO Response :=
  match sc_open sc with
  | Some e => raise e
  | None =>
      let r := event_loop trace (sc_items sc) in
      (lr_out r,
       match lr_exit r with
       | Raised e => inl e
       | _ => sc_final sc
       end)
  end.

(** ** The session *)

(** [history], the terminal, and the requests made so far. *)
Record State : Type :=
  { history : list Turn; out : list Out; requests : list Request }.

Definition write (st : State) (o : list Out) : State :=
  {| history := history st; out := out st ++ o; requests := requests st |}.

Definition assistant_label : pystr :=
  str (FG_GREEN ++ BOLD ++ "Assistant:" ++ RESET ++ " ").

(** [resp.output_text or ""] *)
Definition or_empty (t : option pystr) : pystr :=
  match t with
  | Some s => s
  | None => []
  end.

(** The arguments [ask] passes to [client.responses.stream], after the
    user turn was appended. *)
Definition ask_request (args : Args) (model_ user_text : pystr) (st : State)
    : Request :=
  {| r_model := model_;
     r_input := history st ++ [user_turn user_text];
     r_tools := or_none (tools_of args) |}.

(** [ask(model, user_text)]: the new state and the value returned, or the
    exception that leaves [ask]: the user interrupt, re-raised, or another
    exception that is no [Exception], or the [UnicodeEncodeError] of the
    [print] in the [except Exception] clause.  The locals [maybe] and
    [marker] are computed from [reply] and never used. *)
Definition ask (args : Args) (client : Request -> Script)
    (model_ user_text : pystr) (st : State) : State * (exn + pystr) :=
  let h := history st ++ [user_turn user_text] in
  let req := ask_request args model_ user_text st in
  let o := out st ++ [OBar "Assistant" FG_GREEN; OPrint (PStr assistant_label) []] in
  let rs := requests st ++ [req] in
  match try_body (trace args) (client req) with
  | (o', inl e) =>
      if is_Exception e then
        if printable_exn e then
          ({| history := h; out := o ++ o' ++ [OBar "Error" FG_RED; OExn e];
              requests := rs |},
           inr [])
        else
          ({| history := h; out := o ++ o' ++ [OBar "Error" FG_RED];
              requests := rs |},
           inl UnicodeEncodeError)
      else ({| history := h; out := o ++ o'; requests := rs |}, inl e)
  | (o', inr resp) =>
      let reply := or_empty (output_text resp) in
      ({| history := h ++ [assistant_turn reply]; out := o ++ o';
          requests := rs |},
       inr reply)
  end.

(** How [main] ends: the interrupt handler printed the farewell, or an
    exception left [main]. *)
Inductive Exit : Type :=
| Bye
| Uncaught (e : exn).

(** What [input] does at one prompt. *)
Inductive Prompt : Type :=
| Line (s : pystr)
| Raises (e : exn).

Definition you_label : pystr := str (BOLD ++ "You:" ++ RESET ++ " ").

Definition farewell : pystr :=
  [10%N] ++ str DIM ++ str "Bye! " ++ [128075%N] ++ str RESET.

(** The [except KeyboardInterrupt:] clause of [main]. *)
Definition finish (st : State) (e : exn) : State * Exit :=
  match e with
  | KeyboardInterrupt => (write st [OPrint (PStr farewell) [10%N]], Bye)
  | _ => (st, Uncaught e)
  end.

(** [while True: ...]; at the end of standard input [input] raises
    [EOFError]. *)
Fixpoint main_loop (args : Args) (client : Request -> Script)
    (inputs : list Prompt) (st : State) : State * Exit :=
  let st1 := write st [OBar "You" FG_CYAN; OInput you_label] in
  match inputs with
  | [] => finish st1 EOFError
  | Raises e :: _ => finish st1 e
  | Line s :: rest =>
      let user_text := strip s in
      if negb (truthy (PStr user_text)) then main_loop args client rest st1
      else
        match ask args client (model args) user_text st1 with
        | (st2, inl e) => finish st2 e
        | (st2, inr _) => main_loop args client rest st2
        end
  end.

Definition init_state : State :=
  {| history := [system_turn]; out := []; requests := [] |}.

(** [if args.message:] *)
Definition message_given (args : Args) : option pystr :=
  match message args with
  | Some m => if truthy (PStr m) then Some m else None
  | None => None
  end.

(** [main()] on a parsed command line.  The [print] of the initial
    message raises when the message cannot be encoded. *)
Definition main (args : Args) (client : Request -> Script)
    (inputs : list Prompt) : State * Exit :=
  match message_given args with
  | Some m =>
      if encodable m then
        let st1 :=
          write init_state [OBar "You" FG_CYAN; OPrint (PStr (you_label ++ m)) [10%N]] in
        match ask args client (model args) m st1 with
        | (st2, inl e) => finish st2 e
        | (st2, inr _) => main_loop args client inputs st2
        end
      else finish (write init_state [OBar "You" FG_CYAN]) UnicodeEncodeError
  | None => main_loop args client inputs init_state
  end.

(** ** Vocabulary of the properties *)

Definition is_error_event (event : Event) : bool :=
  eq_str (event_type event) "response.error".

(** The four tool-call events of the loop. *)
Inductive ToolVariant : Type :=
| ToolBegin
| ToolArgFragment
| ToolOutput
| ToolCompletion.

Definition variant_type (v : ToolVariant) : string :=
  match v with
  | ToolBegin => "response.tool_call.begin"
  | ToolArgFragment => "response.tool_call.delta"
  | ToolOutput => "response.tool_call.output"
  | ToolCompletion => "response.tool_call.completed"
  end.

Definition is_variant (v : ToolVariant) (event : Event) : bool :=
  eq_str (event_type event) (variant_type v).

(** The banner [bar] prints first in the branch of a variant, if any. *)
Definition variant_banner (v : ToolVariant) : option Out :=
  match v with
  | ToolBegin => Some (OBar "Tool Call Begin" FG_YELLOW)
  | ToolArgFragment => None
  | ToolOutput => Some (OBar "Tool Output" FG_BLUE)
  | ToolCompletion => Some (OBar "Tool Call Completed" FG_YELLOW)
  end.

Definition is_bar (o : Out) : bool :=
  match o with
  | OBar _ _ => true
  | _ => false
  end.

(** Number of banners among the calls written. *)
Definition count_bars (o : list Out) : nat := List.length (filter is_bar o).

(** Exception [e] is raised while the stream is established or consumed:
    on opening, inside the loop (by the iterator or by a handler), or by
    [get_final_response]. *)
Definition stream_raises (trace : bool) (sc : Script) (e : exn) : Prop :=
  sc_open sc = Some e
  \/ (sc_open sc = None
      /\ lr_exit (event_loop trace (sc_items sc)) = Raised e)
  \/ (sc_open sc = None
      /\ (forall e', lr_exit (event_loop trace (sc_items sc)) <> Raised e')
      /\ sc_final sc = inl e).

(** The exchange reaches the final response: nothing is raised. *)
Definition completes (trace : bool) (sc : Script) (resp : Response) : Prop :=
  sc_open sc = None
  /\ (forall e, lr_exit (event_loop trace (sc_items sc)) <> Raised e)
  /\ sc_final sc = inr resp.

(** The turn lists a session goes through: the initial one, the one
    between the two appends of [ask], and the one [ask] leaves. *)
Inductive reachable : list Turn -> Prop :=
| reach_init : reachable (history init_state)
| reach_user h user_text :
    reachable h -> reachable (h ++ [user_turn user_text])
| reach_ask args client model_ user_text st :
    reachable (history st) ->
    reachable (history (fst (ask args client model_ user_text st))).

(** ** Sample events, scripts and command lines *)

Definition ev_text_delta (s : string) : Event :=
  [("type", PStr (str "response.output_text.delta")); ("delta", PStr (str s))].

Definition ev_text_done : Event :=
  [("type", PStr (str "response.output_text.done"))].

Definition ev_error (msg : string) : Event :=
  [("type", PStr (str "response.error")); ("error", PStr (str msg))].

(** A tool-call argument fragment that carries no [args_delta]. *)
Definition ev_bare_fragment : Event :=
  [("type", PStr (str "response.tool_call.delta"))].

Definition ev_fragment : Event :=
  [("type", PStr (str "response.tool_call.delta"));
   ("args_delta", PStr (str "{"))].

Definition hello_items : list Item :=
  [Yield (ev_text_delta "Hel"); Yield (ev_text_delta "lo");
   Yield (ev_text_delta "!"); Yield ev_text_done].

Definition hello_script : Script :=
  {| sc_open := None; sc_items := hello_items;
     sc_final := inr {| output_text := Some (str "Hello!") |} |}.

(** The same events, with a final response whose text is not their
    concatenation. *)
Definition hello_other_script : Script :=
  {| sc_open := None; sc_items := hello_items;
     sc_final := inr {| output_text := Some (str "Bye") |} |}.

(** The same events, with no final response. *)
Definition hello_unfinished_script : Script :=
  {| sc_open := None; sc_items := hello_items;
     sc_final := inl (LibraryError (str "no response.completed event")) |}.

(** An error event, a later fragment, and a final response. *)
Definition error_then_final_script : Script :=
  {| sc_open := None;
     sc_items := [Yield (ev_text_delta "par"); Yield (ev_error "overloaded");
                  Yield (ev_text_delta "tial")];
     sc_final := inr {| output_text := Some (str "partial") |} |}.

(** An error event after which there is no final response. *)
Definition error_script : Script :=
  {| sc_open := None;
     sc_items := [Yield (ev_text_delta "par"); Yield (ev_error "overloaded");
                  Yield (ev_text_delta "tial")];
     sc_final := inl (LibraryError (str "no response.completed event")) |}.

(** The connection is lost during the iteration. *)
Definition dropped_script : Script :=
  {| sc_open := None;
     sc_items := [Yield (ev_text_delta "Hel");
                  Throw (LibraryError (str "connection lost"))];
     sc_final := inr {| output_text := Some (str "Hel") |} |}.

(** A final response without text. *)
Definition silent_script : Script :=
  {| sc_open := None; sc_items := [Yield ev_text_done];
     sc_final := inr {| output_text := None |} |}.

Definition default_args : Args :=
  {| message := None; model := str "gpt-5-mini"; no_tools := false;
     trace := false |}.

Definition no_tools_args : Args :=
  {| message := Some (str "hi"); model := str "gpt-5-mini"; no_tools := true;
     trace := true |}.


(** ** Vocabulary of the further properties *)

(** The seven type strings the [if]/[elif] chain of the loop compares
    with. *)
Definition handled_types : list string :=
  ["response.output_text.delta"; "response.output_text.done";
   "response.tool_call.begin"; "response.tool_call.delta";
   "response.tool_call.output"; "response.tool_call.completed";
   "response.error"].

Definition is_handled_type (event : Event) : bool :=
  existsb (eq_str (event_type event)) handled_types.

(** The event is one of the four tool-call events. *)
Definition is_tool_event (event : Event) : bool :=
  is_variant ToolBegin event || is_variant ToolArgFragment event
  || is_variant ToolOutput event || is_variant ToolCompletion event.

Definition is_text_delta (event : Event) : bool :=
  eq_str (event_type event) "response.output_text.delta".

(** What taking one element from the iterator writes. *)
Definition item_out (trace : bool) (it : Item) : list Out :=
  match it with
  | Yield event => fst (handle_event trace event)
  | Throw _ => []
  end.

(** The line makes the interactive loop start an exchange. *)
Definition nonblank (p : Prompt) : bool :=
  match p with
  | Line s => negb (forallb isspace s)
  | Raises _ => false
  end.

(** The turns after the system turn: user turns, each followed by at most
    one assistant turn. *)
Inductive dialogue : list Turn -> Prop :=
| dlg_nil : dialogue []
| dlg_unanswered u rest :
    dialogue rest -> dialogue (user_turn u :: rest)
| dlg_answered u a rest :
    dialogue rest -> dialogue (user_turn u :: assistant_turn a :: rest).



(** The banner and label [ask] writes before the [try] statement. *)
Definition ask_header : list Out :=
  [OBar "Assistant" FG_GREEN; OPrint (PStr assistant_label) []].

(** The two calls of the [except Exception as e:] clause of [ask]. *)
Definition error_report (e : exn) : list Out :=
  [OBar "Error" FG_RED; OExn e].

(** A text fragment event carrying [s]. *)
Definition text_delta_event (s : pystr) : Event :=
  [("type", PStr (str "response.output_text.delta")); ("delta", PStr s)].

(** Events of a type the loop does not know, without a type, and a text
    fragment whose [delta] is missing. *)
Definition ev_completed : Event :=
  [("type", PStr (str "response.completed"))].

Definition ev_untyped : Event := [("delta", PStr (str "x"))].

Definition ev_delta_missing : Event :=
  [("type", PStr (str "response.output_text.delta"))].

(** The stream cannot be opened. *)
Definition refused_script : Script :=
  {| sc_open := Some (LibraryError (str "401 unauthorized"));
     sc_items := hello_items;
     sc_final := inr {| output_text := Some (str "Hello!") |} |}.

(** The user interrupts while the stream is iterated. *)
Definition interrupted_script : Script :=
  {| sc_open := None;
     sc_items := [Yield (ev_text_delta "Hel"); Throw KeyboardInterrupt];
     sc_final := inr {| output_text := Some (str "Hel") |} |}.

(** A fragment without [delta] between two good ones. *)
Definition malformed_script : Script :=
  {| sc_open := None;
     sc_items := [Yield (ev_text_delta "Hel"); Yield ev_delta_missing;
                  Yield (ev_text_delta "lo")];
     sc_final := inr {| output_text := Some (str "Hello") |} |}.





(** A tool-call begin event that names no tool, in a stream that is
    otherwise complete, and a command line with [--trace]. *)
Definition ev_begin_unnamed : Event :=
  [("type", PStr (str "response.tool_call.begin"))].

Definition unnamed_tool_script : Script :=
  {| sc_open := None;
     sc_items := [Yield ev_begin_unnamed; Yield (ev_text_delta "Hello!")];
     sc_final := inr {| output_text := Some (str "Hello!") |} |}.

Definition trace_args : Args :=
  {| message := None; model := str "gpt-5-mini"; no_tools := false;
     trace := true |}.

(** * Properties *)

(** ** Text *)

Lemma pystr_eqb_eq (a b : pystr) : pystr_eqb a b = true <-> a = b.
Proof.
  revert b; induction a as [|x a IH]; intros [|y b]; simpl;
    try (split; [discriminate | discriminate]); [tauto|].
  rewrite andb_true_iff, N.eqb_eq, IH.
  split; [intros [-> ->]; reflexivity | intros H; inversion H; auto].
Qed.

Lemma eq_str_true (t : pyval) (lit : string) :
  eq_str t lit = true -> t = PStr (str lit).
Proof.
  destruct t; simpl; try discriminate.
  intros H; apply pystr_eqb_eq in H; now subst.
Qed.

Lemma lstrip_all_space (s : pystr) :
  forallb isspace s = true -> lstrip s = [].
Proof.
  induction s as [|c s IH]; simpl; [reflexivity|].
  intros H; apply andb_true_iff in H as [Hc Hs].
  rewrite Hc; auto.
Qed.

Lemma lstrip_nil_inv (s : pystr) :
  lstrip s = [] -> forallb isspace s = true.
Proof.
  induction s as [|c s IH]; simpl; [reflexivity|].
  destruct (isspace c); [auto | discriminate].
Qed.

Lemma strip_all_space (s : pystr) :
  forallb isspace s = true -> strip s = [].
Proof.
  intros H; unfold strip, rstrip.
  rewrite (lstrip_all_space s H); reflexivity.
Qed.

Lemma forallb_rev {A : Type} (f : A -> bool) (l : list A) :
  forallb f (rev l) = forallb f l.
Proof.
  induction l as [|x l IH]; simpl; [reflexivity|].
  rewrite forallb_app, IH; simpl.
  rewrite andb_true_r; apply andb_comm.
Qed.

Lemma lstrip_head (s : pystr) (c : N) (r : pystr) :
  lstrip s = c :: r -> isspace c = false.
Proof.
  induction s as [|x s IH]; simpl; [discriminate|].
  destruct (isspace x) eqn:Hx; [exact IH|].
  intros H; inversion H; subst; exact Hx.
Qed.

(** [strip] leaves nothing exactly on the lines made of whitespace. *)
Lemma strip_nil_iff (s : pystr) :
  strip s = [] <-> forallb isspace s = true.
Proof.
  split; [|apply strip_all_space].
  unfold strip, rstrip; intros H.
  assert (Hr : lstrip (rev (lstrip s)) = []).
  { rewrite <- (rev_involutive (lstrip (rev (lstrip s)))), H; reflexivity. }
  apply lstrip_nil_inv in Hr; rewrite forallb_rev in Hr.
  destruct (lstrip s) as [|c r] eqn:Hl; [now apply lstrip_nil_inv|].
  apply lstrip_head in Hl; simpl in Hr; rewrite Hl in Hr; discriminate.
Qed.

(** ** The dispatch of one event *)

Lemma handle_error_event (trace : bool) (event : Event) :
  is_error_event event = true -> handle_event trace event = on_error event.
Proof.
  unfold is_error_event, handle_event; intros H.
  apply eq_str_true in H; rewrite H.
  destruct trace; reflexivity.
Qed.

Lemma handle_tool_event (trace : bool) (v : ToolVariant) (event : Event) :
  is_variant v event = true ->
  handle_event trace event =
  if trace then
    match v with
    | ToolBegin => on_tool_begin event
    | ToolArgFragment => on_tool_delta event
    | ToolOutput => on_tool_output event
    | ToolCompletion => on_tool_completed event
    end
  else ret Continue.
Proof.
  unfold is_variant, handle_event; intros H.
  apply eq_str_true in H; rewrite H.
  destruct trace, v; reflexivity.
Qed.

(** The error branch writes its banner first and never lets the loop go
    on: it breaks, or a handler exception leaves the loop. *)
Lemma on_error_cases (event : Event) :
  exists o,
    (on_error event = (OBar "Error" FG_RED :: o, inr Break))
    \/ (exists e, on_error event = (OBar "Error" FG_RED :: o, inl e)
                  /\ is_Exception e = true).
Proof.
  unfold on_error, getattr, print_json, bind, emit, ret, raise.
  destruct (assoc "error" event) as [err|]; cbn [app];
    [|eexists; right; eexists; split; reflexivity].
  destruct (serialisable (PDict [(str "error", err)])); cbn [app];
    [|eexists; right; eexists; split; reflexivity].
  destruct (json_encodable (PDict [(str "error", err)])); cbn [app];
    eexists; [left | right; eexists; split]; reflexivity.
Qed.

(** ** The loop *)

Lemma event_loop_app (trace : bool) (pre post : list Item) :
  lr_exit (event_loop trace pre) = Exhausted ->
  event_loop trace (pre ++ post) =
  {| lr_out := lr_out (event_loop trace pre) ++ lr_out (event_loop trace post);
     lr_exit := lr_exit (event_loop trace post);
     lr_rest := lr_rest (event_loop trace post) |}.
Proof.
  induction pre as [|[event|e] pre IH]; simpl.
  - intros _; destruct (event_loop trace post); reflexivity.
  - destruct (handle_event trace event) as [o [e|[|]]]; simpl;
      try discriminate.
    intros H; rewrite (IH H); simpl; rewrite app_assoc; reflexivity.
  - discriminate.
Qed.

(** The loop at an error event: the branch is run, the loop is left, and
    the elements that follow stay in the iterator. *)
Lemma event_loop_error (trace : bool) (event : Event) (post : list Item) :
  is_error_event event = true ->
  lr_out (event_loop trace (Yield event :: post)) = fst (on_error event)
  /\ lr_rest (event_loop trace (Yield event :: post)) = post
  /\ (lr_exit (event_loop trace (Yield event :: post)) = Broke
      \/ exists e, lr_exit (event_loop trace (Yield event :: post)) = Raised e
                   /\ is_Exception e = true).
Proof.
  intros H; simpl; rewrite (handle_error_event trace event H).
  destruct (on_error_cases event) as [o [Hb|[e [He Hx]]]].
  - rewrite Hb; simpl; auto.
  - rewrite He; simpl; repeat split; eauto.
Qed.

(** ** The [try] statement *)

Lemma try_body_raises (trace : bool) (sc : Script) (e : exn) :
  stream_raises trace sc e -> snd (try_body trace sc) = inl e.
Proof.
  unfold stream_raises, try_body.
  intros [H|[[H1 H2]|[H1 [H2 H3]]]]; rewrite ?H, ?H1; simpl;
    [reflexivity | now rewrite H2 |].
  destruct (lr_exit (event_loop trace (sc_items sc))) as [| |e'];
    [assumption | assumption | now destruct (H2 e')].
Qed.

Lemma try_body_completes (trace : bool) (sc : Script) (resp : Response) :
  completes trace sc resp ->
  try_body trace sc = (lr_out (event_loop trace (sc_items sc)), inr resp).
Proof.
  unfold completes, try_body; intros [H1 [H2 H3]]; rewrite H1.
  destruct (lr_exit (event_loop trace (sc_items sc))) as [| |e'];
    [now rewrite H3 | now rewrite H3 | now destruct (H2 e')].
Qed.

(** Every exchange either raises or completes. *)
Lemma try_body_cases (trace : bool) (sc : Script) :
  (exists e, stream_raises trace sc e)
  \/ (exists resp, completes trace sc resp).
Proof.
  unfold stream_raises, completes.
  destruct (sc_open sc) as [e|] eqn:Ho; [left; eauto|].
  destruct (lr_exit (event_loop trace (sc_items sc))) as [| |e] eqn:Hl.
  - destruct (sc_final sc) as [e|resp] eqn:Hf.
    + left; exists e; right; right; repeat split; auto; discriminate.
    + right; exists resp; repeat split; auto; discriminate.
  - destruct (sc_final sc) as [e|resp] eqn:Hf.
    + left; exists e; right; right; repeat split; auto; discriminate.
    + right; exists resp; repeat split; auto; discriminate.
  - left; exists e; right; left; auto.
Qed.

(** ** One exchange *)

Lemma ask_requests (args : Args) (client : Request -> Script)
    (model_ user_text : pystr) (st : State) :
  requests (fst (ask args client model_ user_text st)) =
  requests st ++ [ask_request args model_ user_text st].
Proof.
  unfold ask.
  destruct (try_body _ _) as [o [e|resp]]; [|reflexivity].
  destruct (is_Exception e), (printable_exn e); reflexivity.
Qed.

Lemma ask_history (args : Args) (client : Request -> Script)
    (model_ user_text : pystr) (st : State) :
  history (fst (ask args client model_ user_text st)) =
  history st ++ user_turn user_text ::
    match snd (try_body (trace args)
                 (client (ask_request args model_ user_text st))) with
    | inl _ => []
    | inr resp => [assistant_turn (or_empty (output_text resp))]
    end.
Proof.
  unfold ask.
  destruct (try_body _ _) as [o [e|resp]]; cbn [snd];
    [destruct (is_Exception e), (printable_exn e) | ]; cbn [fst history];
    rewrite <- ?app_assoc; reflexivity.
Qed.

(** The exchange on a failure that is not the user interrupt. *)
Lemma ask_failure (args : Args) (client : Request -> Script)
    (model_ user_text : pystr) (st : State) (e : exn) :
  stream_raises (trace args)
    (client (ask_request args model_ user_text st)) e ->
  is_Exception e = true ->
  printable_exn e = true ->
  snd (ask args client model_ user_text st) = inr []
  /\ history (fst (ask args client model_ user_text st)) =
     history st ++ [user_turn user_text].
Proof.
  intros Hr He Hp; split.
  - apply try_body_raises in Hr; unfold ask.
    destruct (try_body _ _) as [o r]; simpl in Hr; subst r.
    rewrite He, Hp; reflexivity.
  - rewrite ask_history, (try_body_raises _ _ _ Hr); reflexivity.
Qed.

(** The exchange that reaches the final response. *)
Lemma ask_success (args : Args) (client : Request -> Script)
    (model_ user_text : pystr) (st : State) (resp : Response) :
  completes (trace args)
    (client (ask_request args model_ user_text st)) resp ->
  snd (ask args client model_ user_text st) =
    inr (or_empty (output_text resp))
  /\ history (fst (ask args client model_ user_text st)) =
     history st ++ [user_turn user_text;
                    assistant_turn (or_empty (output_text resp))].
Proof.
  intros Hc; apply try_body_completes in Hc; split.
  - unfold ask; rewrite Hc; reflexivity.
  - rewrite ask_history, Hc; reflexivity.
Qed.

(** ** Error events *)

(** C1 (as the code has it): when the loop reaches an error event, the
    error branch is the last thing the loop writes and the elements after
    the event are never taken from the iterator.  The final response is
    still requested when the loop was left by [break]: an assistant turn is
    appended exactly when that request returns a response; otherwise the
    user turn is the only turn appended. *)
Theorem error_event_halts_loop (args : Args) (client : Request -> Script)
    (model_ user_text : pystr) (st : State) (sc : Script)
    (pre : list Item) (event : Event) (post : list Item) :
  client (ask_request args model_ user_text st) = sc ->
  sc_open sc = None ->
  sc_items sc = pre ++ Yield event :: post ->
  lr_exit (event_loop (trace args) pre) = Exhausted ->
  is_error_event event = true ->
  let r := event_loop (trace args) (sc_items sc) in
  let st' := fst (ask args client model_ user_text st) in
  lr_out r = lr_out (event_loop (trace args) pre) ++ fst (on_error event)
  /\ lr_rest r = post
  /\ lr_exit r <> Exhausted
  /\ match lr_exit r, sc_final sc with
     | Broke, inr resp =>
         history st' =
         history st ++ [user_turn user_text;
                        assistant_turn (or_empty (output_text resp))]
     | _, _ => history st' = history st ++ [user_turn user_text]
     end.
Proof.
  intros Hsc Hopen Hitems Hpre Herr r st'; subst r st'.
  rewrite ask_history, Hsc; unfold try_body; rewrite Hopen, Hitems.
  rewrite (event_loop_app _ _ _ Hpre).
  destruct (event_loop_error (trace args) event post Herr)
    as (Ho & Hr & Hx).
  cbn [lr_out lr_exit lr_rest]; rewrite Ho, Hr.
  repeat split.
  - destruct Hx as [-> | [e [-> _]]]; discriminate.
  - destruct Hx as [-> | [e [-> _]]]; cbn [snd].
    + destruct (sc_final sc); reflexivity.
    + reflexivity.
Qed.

Lemma error_event_halts_loop_witness :
  lr_rest (event_loop false (sc_items error_script))
    = [Yield (ev_text_delta "tial")]
  /\ history (fst (ask default_args (fun _ => error_script)
                     (str "gpt-5-mini") (str "q") init_state))
     = [system_turn; user_turn (str "q")].
Proof.
  destruct (error_event_halts_loop default_args (fun _ => error_script)
              (str "gpt-5-mini") (str "q") init_state error_script
              [Yield (ev_text_delta "par")] (ev_error "overloaded")
              [Yield (ev_text_delta "tial")]
              eq_refl eq_refl eq_refl eq_refl eq_refl)
    as (_ & Hrest & _ & Hturns).
  split; [exact Hrest | exact Hturns].
Defined.

(** C1 as stated fails: the loop is left at an error event, the fragment
    after it stays unread, and an assistant turn is appended all the same,
    because the final response was returned. *)
Lemma error_event_then_assistant_turn :
  let r := event_loop (trace default_args)
             (sc_items error_then_final_script) in
  let st' := fst (ask default_args (fun _ => error_then_final_script)
                    (str "gpt-5-mini") (str "q") init_state) in
  is_error_event (ev_error "overloaded") = true
  /\ lr_exit r = Broke
  /\ lr_rest r = [Yield (ev_text_delta "tial")]
  /\ history st' =
     [system_turn; user_turn (str "q"); assistant_turn (str "partial")]
  /\ history st' <> history init_state ++ [user_turn (str "q")].
Proof.
  cbv zeta; repeat split; try reflexivity.
  vm_compute; discriminate.
Qed.

(** ** Failures *)




(** ** The final response *)

(** C10: an exchange that reaches the final response appends an assistant
    turn also when the output text is absent or empty; the turn then has
    empty text and [ask] returns the empty string, which is also what an
    exchange returns that failed with an [Exception] whose report could be
    written, although that one appends no assistant turn. *)
Theorem empty_reply_is_appended (args : Args) (client : Request -> Script)
    (model_ user_text : pystr) (st : State) (resp : Response) :
  completes (trace args)
    (client (ask_request args model_ user_text st)) resp ->
  output_text resp = None \/ output_text resp = Some [] ->
  snd (ask args client model_ user_text st) = inr []
  /\ history (fst (ask args client model_ user_text st)) =
     history st ++ [user_turn user_text; assistant_turn []]
  /\ forall (client' : Request -> Script) (e : exn),
       stream_raises (trace args)
         (client' (ask_request args model_ user_text st)) e ->
       is_Exception e = true ->
       printable_exn e = true ->
       snd (ask args client' model_ user_text st) =
       snd (ask args client model_ user_text st)
       /\ history (fst (ask args client' model_ user_text st)) <>
          history (fst (ask args client model_ user_text st)).
Proof.
  intros Hc Hempty.
  destruct (ask_success args client model_ user_text st resp Hc) as [H1 H2].
  assert (Hr : or_empty (output_text resp) = []).
  { destruct Hempty as [-> | ->]; reflexivity. }
  rewrite Hr in H1, H2; split; [exact H1 | split; [exact H2|]].
  intros client' e Hraise He Hp.
  destruct (ask_failure args client' model_ user_text st e Hraise He Hp)
    as [H3 H4].
  split; [now rewrite H3, H1|].
  rewrite H4, H2; intros Heq; apply app_inv_head in Heq; discriminate.
Qed.

Lemma empty_reply_is_appended_witness :
  snd (ask default_args (fun _ => silent_script) (str "gpt-5-mini") (str "q")
         init_state) = inr []
  /\ history (fst (ask default_args (fun _ => silent_script)
                     (str "gpt-5-mini") (str "q") init_state)) =
     [system_turn; user_turn (str "q"); assistant_turn []].
Proof.
  destruct (empty_reply_is_appended default_args (fun _ => silent_script)
              (str "gpt-5-mini") (str "q") init_state
              {| output_text := None |}) as (H1 & H2 & _).
  - repeat split; [intros e; discriminate].
  - left; reflexivity.
  - split; [exact H1 | exact H2].
Defined.

(** ** Streamed text *)

(** C4 (as the code has it): on the three fragments "Hel", "lo", "!" and a
    completion marker, the fragments are written to standard output in that
    order and nothing is accumulated; the reply is the output text of the
    final response.  When that text is "Hello!", it is returned and exactly
    one assistant turn with it is appended after the user turn. *)
Theorem hello_exchange (args : Args) (client : Request -> Script)
    (model_ user_text : pystr) (st : State) (sc : Script) :
  client (ask_request args model_ user_text st) = sc ->
  sc_open sc = None ->
  sc_items sc = hello_items ->
  sc_final sc = inr {| output_text := Some (str "Hello!") |} ->
  ask args client model_ user_text st =
  ({| history :=
        history st ++ [user_turn user_text; assistant_turn (str "Hello!")];
      out :=
        out st ++ [OBar "Assistant" FG_GREEN; OPrint (PStr assistant_label) [];
                   OWrite (str "Hel"); OWrite (str "lo"); OWrite (str "!");
                   OPrint (PStr []) []];
      requests := requests st ++ [ask_request args model_ user_text st] |},
   inr (str "Hello!")).
Proof.
  intros Hsc Hopen Hitems Hfinal.
  unfold ask, try_body; rewrite Hsc, Hopen, Hitems, Hfinal.
  assert (Hloop : event_loop (trace args) hello_items =
                  {| lr_out := [OWrite (str "Hel"); OWrite (str "lo");
                                OWrite (str "!"); OPrint (PStr []) []];
                     lr_exit := Exhausted; lr_rest := [] |}).
  { destruct (trace args); reflexivity. }
  rewrite Hloop; cbn [lr_out lr_exit or_empty output_text].
  rewrite <- !app_assoc; reflexivity.
Qed.

Lemma hello_exchange_witness :
  snd (ask default_args (fun _ => hello_script) (str "gpt-5-mini") (str "q")
         init_state) = inr (str "Hello!")
  /\ history (fst (ask default_args (fun _ => hello_script)
                     (str "gpt-5-mini") (str "q") init_state)) =
     [system_turn; user_turn (str "q"); assistant_turn (str "Hello!")].
Proof.
  rewrite (hello_exchange default_args (fun _ => hello_script)
             (str "gpt-5-mini") (str "q") init_state hello_script
             eq_refl eq_refl eq_refl eq_refl).
  split; reflexivity.
Defined.

(** C4 as stated fails: the same four events with a final response of
    another text give that text, and without a final response they give
    the empty string and no assistant turn. *)
Lemma hello_events_other_reply :
  sc_items hello_other_script = hello_items
  /\ sc_items hello_unfinished_script = hello_items
  /\ snd (ask default_args (fun _ => hello_other_script) (str "gpt-5-mini")
            (str "q") init_state) = inr (str "Bye")
  /\ str "Bye" <> str "Hello!"
  /\ ask default_args (fun _ => hello_unfinished_script) (str "gpt-5-mini")
       (str "q") init_state =
     ({| history := [system_turn; user_turn (str "q")];
         out := [OBar "Assistant" FG_GREEN; OPrint (PStr assistant_label) [];
                 OWrite (str "Hel"); OWrite (str "lo"); OWrite (str "!");
                 OPrint (PStr []) []; OBar "Error" FG_RED;
                 OExn (LibraryError (str "no response.completed event"))];
         requests := [ask_request default_args (str "gpt-5-mini") (str "q")
                        init_state] |},
      inr []).
Proof.
  repeat split; try reflexivity.
  vm_compute; discriminate.
Qed.

(** ** Tool-call events *)

Ltac io_cases :=
  unfold getattr_val, print_json, kv, print_value, when; unfold getattr;
  unfold bind, emit, ret, raise;
  repeat (cbn [fst snd app];
          match goal with
          | |- context [match assoc ?n ?e with _ => _ end] =>
              destruct (assoc n e) as [[]|] eqn:?
          | |- context [if truthy ?x then _ else _] =>
              destruct (truthy x) eqn:?
          | |- context [if serialisable ?x then _ else _] =>
              destruct (serialisable x) eqn:?
          | |- context [if json_encodable ?x then _ else _] =>
              destruct (json_encodable x) eqn:?
          | |- context [if printable_value ?x then _ else _] =>
              destruct (printable_value x) eqn:?
          end);
  cbn [fst snd app].

(** C8 (as the code has it): without trace mode a tool-call event writes
    nothing.  In trace mode the branch of its variant is run: a begin, an
    output and a completion event write their banner first and no other
    banner; an argument fragment writes no banner, and writes nothing at
    all unless it carries a non-empty [args_delta], which it then labels. *)
Theorem tool_event_rendering (v : ToolVariant) (event : Event) :
  is_variant v event = true ->
  handle_event false event = ([], inr Continue)
  /\ match variant_banner v with
     | Some b =>
         hd_error (fst (handle_event true event)) = Some b
         /\ count_bars (fst (handle_event true event)) = 1
     | None =>
         count_bars (fst (handle_event true event)) = 0
         /\ (truthy (getattr_or_none event "args_delta") = false ->
             handle_event true event = ([], inr Continue))
         /\ (truthy (getattr_or_none event "args_delta") = true ->
             hd_error (fst (handle_event true event)) =
             Some (OKv "args_delta" (PStr []) FG_YELLOW))
     end.
Proof.
  intros Hv; rewrite !(handle_tool_event _ v event Hv); split; [reflexivity|].
  destruct v; cbn [variant_banner].
  - unfold on_tool_begin; split; io_cases; reflexivity.
  - unfold on_tool_delta; repeat split; io_cases;
      try reflexivity; try discriminate.
  - unfold on_tool_output; split; io_cases; reflexivity.
  - unfold on_tool_completed; split; io_cases; reflexivity.
Qed.

Lemma tool_event_rendering_witness :
  handle_event false ev_fragment = ([], inr Continue)
  /\ hd_error (fst (handle_event true ev_fragment)) =
     Some (OKv "args_delta" (PStr []) FG_YELLOW).
Proof.
  destruct (tool_event_rendering ToolArgFragment ev_fragment eq_refl)
    as (H1 & _ & _ & H2).
  split; [exact H1 | exact (H2 eq_refl)].
Defined.

(** C8 as stated fails: in trace mode an argument fragment without
    [args_delta] is handled without any output. *)
Lemma bare_fragment_is_silent :
  is_variant ToolArgFragment ev_bare_fragment = true
  /\ handle_event true ev_bare_fragment = ([], inr Continue).
Proof. split; reflexivity. Qed.

(** ** The interactive loop *)

(** C5: a line that is empty or made of whitespace only appends no turn
    and makes no request; the loop writes the next prompt and goes on with
    the rest of the input. *)
Theorem blank_line_is_skipped (args : Args) (client : Request -> Script)
    (s : pystr) (rest : list Prompt) (st : State) :
  forallb isspace s = true ->
  let st1 := write st [OBar "You" FG_CYAN; OInput you_label] in
  main_loop args client (Line s :: rest) st = main_loop args client rest st1
  /\ history st1 = history st
  /\ requests st1 = requests st.
Proof.
  intros Hs st1; repeat split.
  cbn [main_loop]; rewrite (strip_all_space s Hs); reflexivity.
Qed.

Lemma blank_line_is_skipped_witness :
  main_loop default_args (fun _ => hello_script)
    [Line (str "   "); Raises KeyboardInterrupt] init_state =
  main_loop default_args (fun _ => hello_script)
    [Raises KeyboardInterrupt]
    (write init_state [OBar "You" FG_CYAN; OInput you_label]).
Proof.
  apply (blank_line_is_skipped default_args (fun _ => hello_script)
           (str "   ") [Raises KeyboardInterrupt] init_state).
  reflexivity.
Defined.

(** A line with anything else in it starts an exchange with the stripped
    text. *)
Lemma other_line_is_asked (args : Args) (client : Request -> Script)
    (s : pystr) (rest : list Prompt) (st : State) :
  forallb isspace s = false ->
  let st1 := write st [OBar "You" FG_CYAN; OInput you_label] in
  main_loop args client (Line s :: rest) st =
  match ask args client (model args) (strip s) st1 with
  | (st2, inl e) => finish st2 e
  | (st2, inr _) => main_loop args client rest st2
  end.
Proof.
  intros Hs st1; cbn [main_loop].
  destruct (strip s) as [|c r] eqn:Hstrip; [|reflexivity].
  apply strip_nil_iff in Hstrip; congruence.
Qed.

(** What holds of the state at the start of [main] and is kept by writing
    to the terminal and by every exchange holds when [main] ends. *)
Section Invariant.

Variable args : Args.
Variable client : Request -> Script.
Variable P : State -> Prop.

Hypothesis P_write : forall st o, P st -> P (write st o).
Hypothesis P_ask :
  forall model_ user_text st,
    P st -> P (fst (ask args client model_ user_text st)).

Lemma finish_inv (st : State) (e : exn) : P st -> P (fst (finish st e)).
Proof. destruct e; simpl; auto. Qed.

Lemma main_loop_inv (inputs : list Prompt) :
  forall st, P st -> P (fst (main_loop args client inputs st)).
Proof.
  induction inputs as [|[s|e] rest IH]; intros st Hst; cbn [main_loop].
  - apply finish_inv; auto.
  - destruct (negb (truthy (PStr (strip s)))); [apply IH; auto|].
    pose proof (P_ask (model args) (strip s)
                  (write st [OBar "You" FG_CYAN; OInput you_label])
                  (P_write _ _ Hst)) as Ha.
    destruct (ask args client (model args) (strip s) _) as [st2 [e|r]];
      [apply finish_inv | apply IH]; exact Ha.
  - apply finish_inv; auto.
Qed.

Lemma main_inv (inputs : list Prompt) :
  P init_state -> P (fst (main args client inputs)).
Proof.
  intros H0; unfold main.
  destruct (message_given args) as [m|]; [|now apply main_loop_inv].
  destruct (encodable m); [|apply finish_inv; auto].
  pose proof (P_ask (model args) m
                (write init_state
                   [OBar "You" FG_CYAN; OPrint (PStr (you_label ++ m)) [10%N]])
                (P_write _ _ H0)) as Ha.
  destruct (ask args client (model args) m _) as [st2 [e|r]];
    [apply finish_inv | apply main_loop_inv]; exact Ha.
Qed.

End Invariant.

(** ** Requests *)

(** C6: with [--no-tools], every request made during the session carries
    no tool descriptor, whatever [--trace] is. *)
Theorem no_tools_requests (args : Args) (client : Request -> Script)
    (inputs : list Prompt) :
  no_tools args = true ->
  Forall (fun req => r_tools req = None)
    (requests (fst (main args client inputs))).
Proof.
  intros Hn.
  apply (main_inv args client
           (fun st => Forall (fun req => r_tools req = None) (requests st))).
  - intros st o H; exact H.
  - intros model_ user_text st H; rewrite ask_requests.
    apply Forall_app; split; [exact H|].
    constructor; [|constructor].
    unfold ask_request, tools_of; cbn [r_tools]; rewrite Hn; reflexivity.
  - constructor.
Qed.

Lemma no_tools_requests_witness :
  Forall (fun req => r_tools req = None)
    (requests (fst (main no_tools_args (fun _ => hello_script)
                      [Line (str "more"); Raises KeyboardInterrupt]))).
Proof.
  apply (no_tools_requests no_tools_args (fun _ => hello_script)
           [Line (str "more"); Raises KeyboardInterrupt]).
  reflexivity.
Defined.

(** ** The turn sequence *)

(** C3: in a session all of whose exchanges reach their final response,
    the turn sequence has 1 + 2N elements after the N exchanges made,
    N being the number of requests. *)
Theorem turn_count (args : Args) (client : Request -> Script)
    (inputs : list Prompt) :
  (forall req, exists resp, completes (trace args) (client req) resp) ->
  List.length (history (fst (main args client inputs))) =
  1 + 2 * List.length (requests (fst (main args client inputs))).
Proof.
  intros Hok.
  apply (main_inv args client
           (fun st => List.length (history st) =
                      1 + 2 * List.length (requests st))).
  - intros st o H; exact H.
  - intros model_ user_text st H.
    destruct (Hok (ask_request args model_ user_text st)) as [resp Hc].
    destruct (ask_success args client model_ user_text st resp Hc) as [_ Hh].
    rewrite Hh, ask_requests, !length_app; simpl; lia.
  - reflexivity.
Qed.

Lemma turn_count_witness :
  List.length
    (history (fst (main no_tools_args (fun _ => hello_script)
                     [Line (str "more"); Line (str " "); Line (str "again")])))
  = 1 + 2 * 3.
Proof.
  rewrite (turn_count no_tools_args (fun _ => hello_script)
             [Line (str "more"); Line (str " "); Line (str "again")]).
  - reflexivity.
  - intros req; exists {| output_text := Some (str "Hello!") |}.
    repeat split; intros e; discriminate.
Defined.

Lemma hd_error_app {A : Type} (x : A) (l l' : list A) :
  hd_error l = Some x -> hd_error (l ++ l') = Some x.
Proof. destruct l; simpl; [discriminate | auto]. Qed.

(** The turn list of a session of [main] is one of the reachable ones. *)
Lemma main_history_reachable (args : Args) (client : Request -> Script)
    (inputs : list Prompt) :
  reachable (history (fst (main args client inputs))).
Proof.
  apply (main_inv args client (fun st => reachable (history st))).
  - intros st o H; exact H.
  - intros model_ user_text st H; now apply reach_ask.
  - apply reach_init.
Qed.

(** C7: every reachable turn sequence starts with the system turn of the
    session start, and an exchange leaves the turns it finds in place: it
    only appends after them. *)
Theorem system_turn_stays_first (h : list Turn) :
  reachable h ->
  hd_error h = Some system_turn
  /\ forall (args : Args) (client : Request -> Script)
            (model_ user_text : pystr) (st : State),
       history st = h ->
       exists added,
         history (fst (ask args client model_ user_text st)) = h ++ added
         /\ hd_error (history (fst (ask args client model_ user_text st))) =
            Some system_turn.
Proof.
  intros Hr.
  assert (Hhd : hd_error h = Some system_turn).
  { induction Hr as [|h user_text Hr IH|args client model_ user_text st Hr IH].
    - reflexivity.
    - now apply hd_error_app.
    - rewrite ask_history; now apply hd_error_app. }
  split; [exact Hhd|].
  intros args client model_ user_text st Hst.
  rewrite ask_history, Hst.
  eexists; split; [reflexivity | now apply hd_error_app].
Qed.

Lemma system_turn_stays_first_witness :
  hd_error [system_turn; user_turn (str "q")] = Some system_turn
  /\ exists added,
       history (fst (ask default_args (fun _ => hello_script)
                       (str "gpt-5-mini") (str "again")
                       {| history := [system_turn; user_turn (str "q")];
                          out := []; requests := [] |})) =
       [system_turn; user_turn (str "q")] ++ added.
Proof.
  destruct (system_turn_stays_first [system_turn; user_turn (str "q")]
              (reach_user [system_turn] (str "q") reach_init)) as [H1 H2].
  split; [exact H1|].
  destruct (H2 default_args (fun _ => hello_script) (str "gpt-5-mini")
              (str "again")
              {| history := [system_turn; user_turn (str "q")];
                 out := []; requests := [] |} eq_refl) as [added [Ha _]].
  exists added; exact Ha.
Defined.

(** ** The initial message *)





(** * Further properties of the loop *)

(** ** Events the loop does not know *)

(** X1: an event whose type is none of the seven strings the loop tests
    for (or is missing, or is not a string) is skipped in both modes: it
    writes nothing and the loop goes on. *)
Theorem unknown_event_is_ignored (trace : bool) (event : Event) :
  is_handled_type event = false ->
  handle_event trace event = ([], inr Continue).
Proof.
  unfold is_handled_type, handled_types; cbn [existsb]; intros H.
  repeat (apply orb_false_iff in H; destruct H as [? H]).
  unfold handle_event.
  repeat match goal with
         | Heq : eq_str _ _ = false |- _ => rewrite Heq; clear Heq
         end.
  rewrite !andb_false_r; reflexivity.
Qed.

Lemma unknown_event_is_ignored_witness :
  handle_event true ev_completed = ([], inr Continue)
  /\ handle_event true ev_untyped = ([], inr Continue).
Proof.
  split.
  - apply (unknown_event_is_ignored true ev_completed); reflexivity.
  - apply (unknown_event_is_ignored true ev_untyped); reflexivity.
Defined.

(** ** Trace mode *)

Lemma handle_event_trace_irrelevant (event : Event) :
  is_tool_event event = false ->
  handle_event true event = handle_event false event.
Proof.
  unfold is_tool_event, is_variant; cbn [variant_type]; intros H.
  repeat (apply orb_false_iff in H; destruct H as [H ?]).
  unfold handle_event.
  repeat match goal with
         | Heq : eq_str _ _ = false |- _ => rewrite Heq; clear Heq
         end.
  reflexivity.
Qed.

(** X2: [--trace] matters for tool-call events only: on a stream without
    them the [try] body writes the same and ends the same with and without
    trace mode. *)
Theorem trace_only_affects_tool_events (sc : Script) :
  Forall (fun it => match it with
                    | Yield event => is_tool_event event = false
                    | Throw _ => True
                    end) (sc_items sc) ->
  event_loop true (sc_items sc) = event_loop false (sc_items sc)
  /\ try_body true sc = try_body false sc.
Proof.
  intros H.
  assert (Hl : event_loop true (sc_items sc) = event_loop false (sc_items sc)).
  { induction H as [|[event|e] items Hit _ IH]; cbn [event_loop].
    - reflexivity.
    - rewrite (handle_event_trace_irrelevant event Hit), IH; reflexivity.
    - reflexivity. }
  split; [exact Hl|]; unfold try_body; rewrite Hl; reflexivity.
Qed.

Lemma trace_only_affects_tool_events_witness :
  try_body true error_then_final_script
  = try_body false error_then_final_script.
Proof.
  apply (trace_only_affects_tool_events error_then_final_script).
  repeat constructor.
Defined.

(** ** What the loop writes *)

(** X3: the loop takes the elements of the stream in order and leaves a
    suffix of them; what it writes is what the handlers of the elements
    taken write, in that order, and a loop that ran to exhaustion left
    nothing. *)
Theorem loop_output_accounting (trace : bool) (items : list Item) :
  exists used,
    items = used ++ lr_rest (event_loop trace items)
    /\ lr_out (event_loop trace items) = flat_map (item_out trace) used
    /\ (lr_exit (event_loop trace items) = Exhausted ->
        lr_rest (event_loop trace items) = []).
Proof.
  induction items as [|[event|e] items IH]; cbn [event_loop].
  - exists []; repeat split.
  - destruct IH as (used & Hitems & Hout & Hrest).
    destruct (handle_event trace event) as [o [e|[|]]] eqn:Hh;
      cbn [lr_out lr_exit lr_rest].
    + exists [Yield event]; cbn [flat_map item_out app]; rewrite Hh.
      repeat split; [now rewrite app_nil_r | discriminate].
    + exists (Yield event :: used); cbn [flat_map item_out app]; rewrite Hh.
      repeat split; [now rewrite <- Hitems | now rewrite Hout | exact Hrest].
    + exists [Yield event]; cbn [flat_map item_out app]; rewrite Hh.
      repeat split; [now rewrite app_nil_r | discriminate].
  - exists [Throw e]; cbn [lr_out lr_exit lr_rest flat_map item_out app].
    repeat split; discriminate.
Qed.

(** ** Text fragments *)

Lemma handle_text_delta (trace : bool) (event : Event) :
  is_text_delta event = true ->
  handle_event trace event = on_text_delta event.
Proof.
  unfold is_text_delta, handle_event; intros H; rewrite H; reflexivity.
Qed.

(** X4: a stream of text fragments that standard output can encode is
    written fragment by fragment, each once and in the order of arrival, in
    both modes; the loop runs to exhaustion. *)
Theorem fragments_are_written_in_order (trace : bool) (items : list Item)
    (fragments : list pystr) :
  Forall2 (fun it f => exists event,
             it = Yield event /\ is_text_delta event = true
             /\ assoc "delta" event = Some (PStr f)
             /\ encodable f = true) items fragments ->
  event_loop trace items =
  {| lr_out := map OWrite fragments; lr_exit := Exhausted; lr_rest := [] |}.
Proof.
  induction 1 as [|it f items fragments (event & -> & Ht & Hd & He) _ IH];
    cbn [event_loop map]; [reflexivity|].
  rewrite (handle_text_delta trace event Ht); unfold on_text_delta, getattr.
  rewrite Hd; unfold bind, ret, stdout_write; rewrite He, IH; reflexivity.
Qed.

Lemma fragments_are_written_in_order_witness :
  event_loop true
    [Yield (ev_text_delta "Hel"); Yield (text_delta_event (str "lo"))] =
  {| lr_out := [OWrite (str "Hel"); OWrite (str "lo")];
     lr_exit := Exhausted; lr_rest := [] |}.
Proof.
  apply (fragments_are_written_in_order true
           [Yield (ev_text_delta "Hel"); Yield (text_delta_event (str "lo"))]
           [str "Hel"; str "lo"]).
  repeat constructor; eexists; repeat split.
Defined.

(** * Further properties of one exchange *)

Lemma try_body_inl_inv (trace : bool) (sc : Script) (e : exn) :
  snd (try_body trace sc) = inl e -> stream_raises trace sc e.
Proof.
  intros H; destruct (try_body_cases trace sc) as [[e' Hr]|[resp Hc]].
  - rewrite (try_body_raises _ _ _ Hr) in H; inversion H; subst; exact Hr.
  - rewrite (try_body_completes _ _ _ Hc) in H; discriminate.
Qed.

(** What leaves [ask] is an exception of the stream that is no
    [Exception], or the [UnicodeEncodeError] of an error report that
    cannot be written. *)
Lemma ask_raises_inv (args : Args) (client : Request -> Script)
    (model_ user_text : pystr) (st : State) (x : exn) :
  snd (ask args client model_ user_text st) = inl x ->
  exists e,
    stream_raises (trace args)
      (client (ask_request args model_ user_text st)) e
    /\ ((is_Exception e = false /\ x = e)
        \/ (is_Exception e = true /\ printable_exn e = false
            /\ x = UnicodeEncodeError)).
Proof.
  unfold ask; destruct (try_body _ _) as [o [e|resp]] eqn:Hb;
    [|discriminate].
  assert (Hr : stream_raises (trace args)
                 (client (ask_request args model_ user_text st)) e).
  { apply try_body_inl_inv; rewrite Hb; reflexivity. }
  destruct (is_Exception e) eqn:He; [destruct (printable_exn e) eqn:Hp|];
    cbn [snd]; intros H; inversion H; subst; eauto 8.
Qed.

(** The whole result of an exchange whose [try] body raises an
    [Exception] that the [except] clause can report. *)
Lemma ask_on_failure (args : Args) (client : Request -> Script)
    (model_ user_text : pystr) (st : State) (o : list Out) (e : exn) :
  try_body (trace args) (client (ask_request args model_ user_text st))
    = (o, inl e) ->
  is_Exception e = true ->
  printable_exn e = true ->
  ask args client model_ user_text st =
  ({| history := history st ++ [user_turn user_text];
      out := (out st ++ ask_header) ++ o ++ error_report e;
      requests := requests st ++ [ask_request args model_ user_text st] |},
   inr []).
Proof.
  intros H He Hp; unfold ask; rewrite H, He, Hp; reflexivity.
Qed.

(** ** Malformed fragments *)

(** X5: a text fragment event whose [delta] is missing or is not a string
    ends the exchange as a failure: nothing is written for it, the
    exception ([AttributeError] or [TypeError]) is reported, later events
    and the final response are not looked at, [ask] returns the empty
    string and no assistant turn is appended. *)
Theorem malformed_fragment_fails_exchange (args : Args)
    (client : Request -> Script) (model_ user_text : pystr) (st : State)
    (sc : Script) (pre : list Item) (event : Event) (post : list Item) :
  client (ask_request args model_ user_text st) = sc ->
  sc_open sc = None ->
  sc_items sc = pre ++ Yield event :: post ->
  lr_exit (event_loop (trace args) pre) = Exhausted ->
  is_text_delta event = true ->
  (forall s, assoc "delta" event <> Some (PStr s)) ->
  exists e,
    (e = AttributeError "delta" \/ e = TypeError)
    /\ ask args client model_ user_text st =
       ({| history := history st ++ [user_turn user_text];
           out := (out st ++ ask_header)
                  ++ lr_out (event_loop (trace args) pre) ++ error_report e;
           requests :=
             requests st ++ [ask_request args model_ user_text st] |},
        inr []).
Proof.
  intros Hsc Hopen Hitems Hpre Ht Hd.
  assert (Hh : exists e, (e = AttributeError "delta" \/ e = TypeError)
                         /\ handle_event (trace args) event = ([], inl e)).
  { rewrite (handle_text_delta _ event Ht); unfold on_text_delta, getattr.
    destruct (assoc "delta" event) as [d|];
      [|exists (AttributeError "delta"); split; [now left | reflexivity]].
    destruct d; try (exists TypeError; split; [now right | reflexivity]).
    now destruct (Hd s). }
  destruct Hh as (e & He & Hh); exists e; split; [exact He|].
  apply ask_on_failure;
    [|destruct He; subst; reflexivity | destruct He; subst; reflexivity].
  rewrite Hsc; unfold try_body; rewrite Hopen, Hitems.
  rewrite (event_loop_app _ _ _ Hpre); cbn [event_loop]; rewrite Hh.
  cbn [lr_out lr_exit]; rewrite app_nil_r; reflexivity.
Qed.

Lemma malformed_fragment_fails_exchange_witness :
  exists e,
    (e = AttributeError "delta" \/ e = TypeError)
    /\ ask default_args (fun _ => malformed_script) (str "gpt-5-mini")
         (str "q") init_state =
       ({| history := [system_turn; user_turn (str "q")];
           out := ask_header ++ [OWrite (str "Hel")] ++ error_report e;
           requests := [ask_request default_args (str "gpt-5-mini") (str "q")
                          init_state] |},
        inr []).
Proof.
  apply (malformed_fragment_fails_exchange default_args
           (fun _ => malformed_script) (str "gpt-5-mini") (str "q")
           init_state malformed_script [Yield (ev_text_delta "Hel")]
           ev_delta_missing [Yield (ev_text_delta "lo")]);
    try reflexivity.
  intros s; discriminate.
Defined.

(** ** A stream that cannot be opened *)

(** X6: when opening the stream raises an [Exception] whose message
    standard output can encode, no element of the stream is taken or
    rendered: after its header [ask] writes only the error report, keeps
    the user turn, and returns the empty string. *)
Theorem refused_stream_reads_nothing (args : Args)
    (client : Request -> Script) (model_ user_text : pystr) (st : State)
    (e : exn) :
  sc_open (client (ask_request args model_ user_text st)) = Some e ->
  is_Exception e = true ->
  printable_exn e = true ->
  ask args client model_ user_text st =
  ({| history := history st ++ [user_turn user_text];
      out := (out st ++ ask_header) ++ error_report e;
      requests := requests st ++ [ask_request args model_ user_text st] |},
   inr []).
Proof.
  intros Hopen He Hp.
  rewrite (ask_on_failure args client model_ user_text st [] e);
    [reflexivity | | exact He | exact Hp].
  unfold try_body; rewrite Hopen; reflexivity.
Qed.

Lemma refused_stream_reads_nothing_witness :
  ask default_args (fun _ => refused_script) (str "gpt-5-mini") (str "q")
    init_state =
  ({| history := [system_turn; user_turn (str "q")];
      out := ask_header
             ++ error_report (LibraryError (str "401 unauthorized"));
      requests := [ask_request default_args (str "gpt-5-mini") (str "q")
                     init_state] |},
   inr []).
Proof.
  apply (refused_stream_reads_nothing default_args (fun _ => refused_script)
           (str "gpt-5-mini") (str "q") init_state
           (LibraryError (str "401 unauthorized"))).
  - reflexivity.
  - reflexivity.
  - reflexivity.
Defined.

(** ** The user interrupt *)

(** X7: an exception leaves [ask] in two ways only.  Either the stream
    raised something that is no [Exception] (the user interrupt or the
    like), and it is that exception; or the stream raised an [Exception]
    whose message standard output cannot encode, and it is the
    [UnicodeEncodeError] of the error report.  In both cases the user turn
    stays appended and no assistant turn is.  The user interrupt of the
    stream always leaves [ask], with no error report written. *)
Theorem interrupt_leaves_ask (args : Args) (client : Request -> Script)
    (model_ user_text : pystr) (st : State) :
  (forall x,
     snd (ask args client model_ user_text st) = inl x ->
     history (fst (ask args client model_ user_text st)) =
       history st ++ [user_turn user_text]
     /\ exists e,
          stream_raises (trace args)
            (client (ask_request args model_ user_text st)) e
          /\ ((is_Exception e = false /\ x = e)
              \/ (is_Exception e = true /\ printable_exn e = false
                  /\ x = UnicodeEncodeError)))
  /\ (stream_raises (trace args)
        (client (ask_request args model_ user_text st)) KeyboardInterrupt ->
      ask args client model_ user_text st =
      ({| history := history st ++ [user_turn user_text];
          out := (out st ++ ask_header)
                 ++ fst (try_body (trace args)
                           (client (ask_request args model_ user_text st)));
          requests :=
            requests st ++ [ask_request args model_ user_text st] |},
       inl KeyboardInterrupt)).
Proof.
  split.
  - intros x Hx.
    destruct (ask_raises_inv args client model_ user_text st x Hx)
      as (e & Hr & Hcase).
    split; [|eauto].
    rewrite ask_history, (try_body_raises _ _ _ Hr); reflexivity.
  - intros Hr; apply try_body_raises in Hr; unfold ask.
    destruct (try_body _ _) as [o r]; cbn [snd fst] in *; subst r.
    reflexivity.
Qed.

Lemma interrupt_leaves_ask_witness :
  ask default_args (fun _ => interrupted_script) (str "gpt-5-mini") (str "q")
    init_state =
  ({| history := [system_turn; user_turn (str "q")];
      out := ask_header ++ [OWrite (str "Hel")];
      requests := [ask_request default_args (str "gpt-5-mini") (str "q")
                     init_state] |},
   inl KeyboardInterrupt).
Proof.
  apply (proj2 (interrupt_leaves_ask default_args
                  (fun _ => interrupted_script) (str "gpt-5-mini") (str "q")
                  init_state)).
  right; left; split; reflexivity.
Defined.

(** ** An error event and no final response *)

Lemma on_error_breaks (event : Event) (err : pyval) :
  assoc "error" event = Some err ->
  serialisable err = true ->
  json_encodable err = true ->
  on_error event =
  ([OBar "Error" FG_RED; OJson (PDict [(str "error", err)])], inr Break).
Proof.
  intros Ha Hs He; unfold on_error, getattr; rewrite Ha.
  unfold print_json, bind, ret, emit.
  cbn [serialisable json_encodable forallb fst snd]; rewrite Hs, He.
  reflexivity.
Qed.

(** X8: when the loop is left at an error event that carries a
    serialisable [error] and the final response then raises an
    [Exception], the payload and the message being text standard output
    can encode, the failure is reported twice: the error branch writes its
    banner and the payload, and the [except] clause writes the banner again
    with the exception. *)
Theorem error_event_is_reported_twice (args : Args)
    (client : Request -> Script) (model_ user_text : pystr) (st : State)
    (sc : Script) (pre : list Item) (event : Event) (post : list Item)
    (err : pyval) (e : exn) :
  client (ask_request args model_ user_text st) = sc ->
  sc_open sc = None ->
  sc_items sc = pre ++ Yield event :: post ->
  lr_exit (event_loop (trace args) pre) = Exhausted ->
  is_error_event event = true ->
  assoc "error" event = Some err ->
  serialisable err = true ->
  json_encodable err = true ->
  sc_final sc = inl e ->
  is_Exception e = true ->
  printable_exn e = true ->
  ask args client model_ user_text st =
  ({| history := history st ++ [user_turn user_text];
      out := (out st ++ ask_header)
             ++ (lr_out (event_loop (trace args) pre)
                 ++ [OBar "Error" FG_RED; OJson (PDict [(str "error", err)])])
             ++ error_report e;
      requests := requests st ++ [ask_request args model_ user_text st] |},
   inr []).
Proof.
  intros Hsc Hopen Hitems Hpre Herr Hattr Hser Henc Hfinal He Hp.
  apply ask_on_failure; [|exact He | exact Hp].
  rewrite Hsc; unfold try_body; rewrite Hopen, Hitems.
  rewrite (event_loop_app _ _ _ Hpre); cbn [event_loop].
  rewrite (handle_error_event _ event Herr).
  rewrite (on_error_breaks event err Hattr Hser Henc).
  cbn [lr_out lr_exit]; rewrite Hfinal; reflexivity.
Qed.

Lemma error_event_is_reported_twice_witness :
  out (fst (ask default_args (fun _ => error_script) (str "gpt-5-mini")
              (str "q") init_state)) =
  ask_header
  ++ [OWrite (str "par"); OBar "Error" FG_RED;
      OJson (PDict [(str "error", PStr (str "overloaded"))])]
  ++ error_report (LibraryError (str "no response.completed event")).
Proof.
  rewrite (error_event_is_reported_twice default_args (fun _ => error_script)
             (str "gpt-5-mini") (str "q") init_state error_script
             [Yield (ev_text_delta "par")] (ev_error "overloaded")
             [Yield (ev_text_delta "tial")] (PStr (str "overloaded"))
             (LibraryError (str "no response.completed event"))
             eq_refl eq_refl eq_refl eq_refl eq_refl eq_refl eq_refl eq_refl
             eq_refl eq_refl eq_refl).
  reflexivity.
Defined.

(** * Further properties of the session *)

(** ** What [strip] leaves *)

Lemma lstrip_decomp (s : pystr) :
  exists w, s = w ++ lstrip s /\ forallb isspace w = true.
Proof.
  induction s as [|c s (w & Hs & Hw)]; [exists []; split; reflexivity|].
  cbn [lstrip]; destruct (isspace c) eqn:Hc.
  - exists (c :: w); cbn [app forallb]; rewrite Hc, Hw, <- Hs; split;
      reflexivity.
  - exists []; split; reflexivity.
Qed.

(** [strip] cuts a run of whitespace off each end, and what is left
    neither starts nor ends with whitespace. *)
Lemma strip_spec (s : pystr) :
  exists pre post,
    s = pre ++ strip s ++ post
    /\ forallb isspace pre = true
    /\ forallb isspace post = true
    /\ (forall c, hd_error (strip s) = Some c -> isspace c = false)
    /\ (forall c, hd_error (rev (strip s)) = Some c -> isspace c = false).
Proof.
  destruct (lstrip_decomp s) as (w1 & Hs & Hw1).
  destruct (lstrip_decomp (rev (lstrip s))) as (w2 & Hr & Hw2).
  assert (Ha : lstrip s = strip s ++ rev w2).
  { unfold strip, rstrip.
    rewrite <- (rev_involutive (lstrip s)) at 1.
    rewrite Hr at 1; apply rev_app_distr. }
  exists w1, (rev w2); repeat split.
  - rewrite <- Ha; exact Hs.
  - exact Hw1.
  - rewrite forallb_rev; exact Hw2.
  - intros c Hc; destruct (strip s) as [|c' r] eqn:Hst; [discriminate|].
    inversion Hc; subst c'.
    apply (lstrip_head s c (r ++ rev w2)); exact Ha.
  - intros c; unfold strip, rstrip; rewrite rev_involutive.
    destruct (lstrip (rev (lstrip s))) as [|c' r] eqn:Hl; [discriminate|].
    intros Hc; inversion Hc; subst c'.
    exact (lstrip_head _ _ _ Hl).
Qed.

Lemma truthy_strip (s : pystr) :
  truthy (PStr (strip s)) = negb (forallb isspace s).
Proof.
  destruct (forallb isspace s) eqn:Hs.
  - rewrite (strip_all_space s Hs); reflexivity.
  - destruct (strip s) eqn:Hst; [|reflexivity].
    apply strip_nil_iff in Hst; congruence.
Qed.

(** ** How a session ends *)




(** ** Input read to its end *)

Lemma ask_returns (args : Args) (client : Request -> Script)
    (model_ user_text : pystr) (st : State) :
  (forall req e, stream_raises (trace args) (client req) e ->
                 is_Exception e = true /\ printable_exn e = true) ->
  exists reply, snd (ask args client model_ user_text st) = inr reply.
Proof.
  intros Hok.
  destruct (snd (ask args client model_ user_text st)) as [x|reply] eqn:Ha;
    [|eauto].
  apply ask_raises_inv in Ha; destruct Ha as (e & Hr & Hcase).
  destruct (Hok _ _ Hr) as [He Hp].
  destruct Hcase as [[H _]|[_ [H _]]]; congruence.
Qed.

Lemma main_loop_piped (args : Args) (client : Request -> Script)
    (inputs : list Prompt) :
  (forall req e, stream_raises (trace args) (client req) e ->
                 is_Exception e = true /\ printable_exn e = true) ->
  Forall (fun p => exists s, p = Line s) inputs ->
  forall st,
    snd (main_loop args client inputs st) = Uncaught EOFError
    /\ List.length (requests (fst (main_loop args client inputs st))) =
       List.length (requests st) + List.length (filter nonblank inputs).
Proof.
  intros Hno Hlines; induction Hlines as [|p rest [s ->] _ IH]; intros st;
    cbn [main_loop].
  - split; [reflexivity | cbn; lia].
  - cbn [filter nonblank]; rewrite truthy_strip, negb_involutive.
    destruct (forallb isspace s); cbn [negb].
    + destruct (IH (write st [OBar "You" FG_CYAN; OInput you_label]))
        as [H1 H2]; split; [exact H1 | exact H2].
    + destruct (ask_returns args client (model args) (strip s)
                  (write st [OBar "You" FG_CYAN; OInput you_label]) Hno)
        as [reply Hr].
      pose proof (ask_requests args client (model args) (strip s)
                    (write st [OBar "You" FG_CYAN; OInput you_label])) as Hq.
      destruct (ask args client (model args) (strip s) _) as [st2 r].
      cbn [snd fst] in Hr, Hq; subst r.
      destruct (IH st2) as [H1 H2]; split; [exact H1|].
      rewrite H2, Hq, length_app; cbn; lia.
Qed.

(** X10: when standard input is read to its end, every exception of the
    stream is an [Exception] whose message standard output can encode, and
    so is the initial message, then every line with something else than
    whitespace in it has started exactly one exchange, also after failed
    exchanges, as has a non-empty [--message]; the session then ends at the
    end of input with an uncaught [EOFError]. *)
Theorem piped_session (args : Args) (client : Request -> Script)
    (inputs : list Prompt) :
  (forall req e, stream_raises (trace args) (client req) e ->
                 is_Exception e = true /\ printable_exn e = true) ->
  (forall m, message_given args = Some m -> encodable m = true) ->
  Forall (fun p => exists s, p = Line s) inputs ->
  snd (main args client inputs) = Uncaught EOFError
  /\ List.length (requests (fst (main args client inputs))) =
     (match message_given args with Some _ => 1 | None => 0 end)
     + List.length (filter nonblank inputs).
Proof.
  intros Hno Hmsg Hlines; unfold main.
  destruct (message_given args) as [m|].
  - rewrite (Hmsg m eq_refl).
    destruct (ask_returns args client (model args) m
                (write init_state
                   [OBar "You" FG_CYAN; OPrint (PStr (you_label ++ m)) [10%N]])
                Hno) as [reply Hr].
    pose proof (ask_requests args client (model args) m
                  (write init_state
                     [OBar "You" FG_CYAN;
                      OPrint (PStr (you_label ++ m)) [10%N]])) as Hq.
    destruct (ask args client (model args) m _) as [st2 r].
    cbn [snd fst] in Hr, Hq; subst r.
    destruct (main_loop_piped args client inputs Hno Hlines st2) as [H1 H2].
    split; [exact H1 | rewrite H2, Hq; reflexivity].
  - destruct (main_loop_piped args client inputs Hno Hlines init_state)
      as [H1 H2]; split; [exact H1 | exact H2].
Qed.

Lemma piped_session_witness :
  snd (main no_tools_args (fun _ => dropped_script)
         [Line (str "one"); Line (str "  "); Line (str " two ")])
    = Uncaught EOFError
  /\ List.length
       (requests (fst (main no_tools_args (fun _ => dropped_script)
                         [Line (str "one"); Line (str "  ");
                          Line (str " two ")]))) = 3.
Proof.
  apply (piped_session no_tools_args (fun _ => dropped_script)
           [Line (str "one"); Line (str "  "); Line (str " two ")]).
  - intros req e [H|[[_ H]|[_ [H _]]]];
      [discriminate | | now destruct (H (LibraryError (str "connection lost")))].
    destruct no_tools_args; cbn in H; inversion H; split; reflexivity.
  - intros m H; inversion H; reflexivity.
  - repeat constructor; eexists; reflexivity.
Defined.

(** ** The turn sequence in any session *)

(** X11: whatever the exchanges do, after N requests the turn sequence
    has at least 1 + N and at most 1 + 2N turns. *)
Theorem turn_count_bounds (args : Args) (client : Request -> Script)
    (inputs : list Prompt) :
  1 + List.length (requests (fst (main args client inputs)))
    <= List.length (history (fst (main args client inputs)))
  /\ List.length (history (fst (main args client inputs)))
     <= 1 + 2 * List.length (requests (fst (main args client inputs))).
Proof.
  apply (main_inv args client
           (fun st =>
              1 + List.length (requests st) <= List.length (history st)
              /\ List.length (history st)
                 <= 1 + 2 * List.length (requests st))).
  - intros st o H; exact H.
  - intros model_ user_text st [H1 H2].
    rewrite ask_history, ask_requests, !length_app.
    destruct (snd (try_body _ _)); cbn [List.length]; lia.
  - cbn; lia.
Qed.

Lemma dialogue_app (h : list Turn) (u : pystr) (answer : list Turn) :
  dialogue h ->
  answer = [] \/ (exists a, answer = [assistant_turn a]) ->
  dialogue (h ++ user_turn u :: answer).
Proof.
  intros Hd Ha; induction Hd as [|u0 rest _ IH|u0 a0 rest _ IH];
    cbn [app].
  - destruct Ha as [-> | [a ->]];
      [apply dlg_unanswered | apply dlg_answered]; apply dlg_nil.
  - now apply dlg_unanswered.
  - now apply dlg_answered.
Qed.

(** X12: in any session the turn sequence is the system turn followed by
    user turns, each followed by at most one assistant turn: an assistant
    turn always comes right after the user turn it answers, and the
    system turn occurs once. *)
Theorem history_is_a_dialogue (args : Args) (client : Request -> Script)
    (inputs : list Prompt) :
  exists rest,
    history (fst (main args client inputs)) = system_turn :: rest
    /\ dialogue rest.
Proof.
  apply (main_inv args client
           (fun st => exists rest,
                        history st = system_turn :: rest /\ dialogue rest)).
  - intros st o H; exact H.
  - intros model_ user_text st (rest & Hh & Hd).
    rewrite ask_history, Hh; cbn [app]; eexists; split; [reflexivity|].
    apply dialogue_app; [exact Hd|].
    destruct (snd (try_body _ _)); [now left | right; eauto].
  - exists []; split; [reflexivity | constructor].
Qed.

(** What holds at the start of [main] and is kept by every exchange on
    the session's model and on a text [main] can pass holds at the end. *)
Section TextInvariant.

Variable args : Args.
Variable client : Request -> Script.
Variable P : State -> Prop.
Variable Q : pystr -> Prop.

Hypothesis P_write : forall st o, P st -> P (write st o).
Hypothesis P_ask :
  forall user_text st,
    Q user_text -> P st ->
    P (fst (ask args client (model args) user_text st)).

Lemma main_loop_inv_text (inputs : list Prompt) :
  (forall s, In (Line s) inputs -> strip s <> [] -> Q (strip s)) ->
  forall st, P st -> P (fst (main_loop args client inputs st)).
Proof.
  induction inputs as [|[s|e] rest IH]; intros HQ st Hst; cbn [main_loop].
  - apply finish_inv; auto.
  - assert (HQ' : forall s', In (Line s') rest -> strip s' <> [] ->
                             Q (strip s')).
    { intros s' Hin; apply HQ; now right. }
    destruct (strip s) as [|c r] eqn:Hs; cbn [truthy negb].
    + apply IH; auto.
    + assert (Hq : Q (c :: r)).
      { rewrite <- Hs; apply HQ; [now left | rewrite Hs; discriminate]. }
      pose proof (P_ask (c :: r)
                    (write st [OBar "You" FG_CYAN; OInput you_label]) Hq
                    (P_write _ _ Hst)) as Ha.
      destruct (ask args client (model args) (c :: r) _) as [st2 [e|reply]];
        [apply finish_inv | apply IH]; auto.
  - apply finish_inv; auto.
Qed.

Lemma main_inv_text (inputs : list Prompt) :
  (forall m, message_given args = Some m -> Q m) ->
  (forall s, In (Line s) inputs -> strip s <> [] -> Q (strip s)) ->
  P init_state -> P (fst (main args client inputs)).
Proof.
  intros Hm HQ H0; unfold main.
  destruct (message_given args) as [m|];
    [|now apply main_loop_inv_text].
  destruct (encodable m); [|apply finish_inv; auto].
  pose proof (P_ask m
                (write init_state
                   [OBar "You" FG_CYAN; OPrint (PStr (you_label ++ m)) [10%N]])
                (Hm m eq_refl) (P_write _ _ H0)) as Ha.
  destruct (ask args client (model args) m _) as [st2 [e|reply]];
    [apply finish_inv | apply main_loop_inv_text]; auto.
Qed.

End TextInvariant.

(** ** What every request carries *)

(** X13: every request of a session names the session's model, carries
    no tool descriptor under [--no-tools] and otherwise exactly the one
    fixed MCP descriptor, and replays the conversation so far: its input
    starts with the system turn, ends with the user turn of its exchange,
    and is a prefix of the final turn sequence. *)
Theorem requests_replay_history (args : Args) (client : Request -> Script)
    (inputs : list Prompt) :
  Forall (fun req =>
            r_model req = model args
            /\ r_tools req = (if no_tools args then None else Some [mcp_tool])
            /\ (exists earlier u,
                  r_input req = system_turn :: earlier ++ [user_turn u])
            /\ (exists later,
                  history (fst (main args client inputs)) =
                  r_input req ++ later))
    (requests (fst (main args client inputs))).
Proof.
  assert (H : (exists rest,
                 history (fst (main args client inputs)) = system_turn :: rest)
              /\ Forall (fun req =>
                   r_model req = model args
                   /\ r_tools req =
                      (if no_tools args then None else Some [mcp_tool])
                   /\ (exists earlier u,
                         r_input req = system_turn :: earlier ++ [user_turn u])
                   /\ (exists later,
                         history (fst (main args client inputs)) =
                         r_input req ++ later))
                   (requests (fst (main args client inputs))));
    [|exact (proj2 H)].
  apply (main_inv_text args client
           (fun st =>
              (exists rest, history st = system_turn :: rest)
              /\ Forall (fun req =>
                   r_model req = model args
                   /\ r_tools req =
                      (if no_tools args then None else Some [mcp_tool])
                   /\ (exists earlier u,
                         r_input req = system_turn :: earlier ++ [user_turn u])
                   /\ (exists later, history st = r_input req ++ later))
                   (requests st))
           (fun _ => True)); auto.
  - intros user_text st _ [[rest Hh] Hreqs]; split.
    + rewrite ask_history, Hh; cbn [app]; eauto.
    + rewrite ask_requests; apply Forall_app; split.
      * eapply Forall_impl; [|exact Hreqs]; cbn beta.
        intros req (Hm & Ht & Hi & later & Hl); repeat split; auto.
        rewrite ask_history, Hl, <- app_assoc; eauto.
      * constructor; [|constructor].
        unfold ask_request; cbn [r_model r_tools r_input]; repeat split.
        -- unfold tools_of; destruct (no_tools args); reflexivity.
        -- rewrite Hh; exists rest, user_text; reflexivity.
        -- rewrite ask_history.
           eexists; rewrite <- app_assoc; reflexivity.
  - split; [exists []; reflexivity | constructor].
Qed.

(** ** The user turns of the interactive loop *)

(** X14: the interactive loop only adds requests, and the user turn that
    ends the input of each of them holds a line of the input stripped of
    its surrounding whitespace: the text is not empty and neither starts
    nor ends with whitespace. *)
Theorem loop_turns_are_stripped (args : Args) (client : Request -> Script)
    (inputs : list Prompt) (st : State) :
  exists added,
    requests (fst (main_loop args client inputs st)) = requests st ++ added
    /\ Forall (fun req =>
                 exists earlier u,
                   r_input req = earlier ++ [user_turn u]
                   /\ (exists s, In (Line s) inputs /\ u = strip s)
                   /\ u <> []
                   /\ (forall c, hd_error u = Some c -> isspace c = false)
                   /\ (forall c, hd_error (rev u) = Some c ->
                                 isspace c = false))
         added.
Proof.
  apply (main_loop_inv_text args client
           (fun st' =>
              exists added,
                requests st' = requests st ++ added
                /\ Forall (fun req =>
                     exists earlier u,
                       r_input req = earlier ++ [user_turn u]
                       /\ (exists s, In (Line s) inputs /\ u = strip s)
                       /\ u <> []
                       /\ (forall c, hd_error u = Some c -> isspace c = false)
                       /\ (forall c, hd_error (rev u) = Some c ->
                                     isspace c = false))
                     added)
           (fun u => (exists s, In (Line s) inputs /\ u = strip s)
                     /\ u <> [])).
  - intros st' o H; exact H.
  - intros u st' [[s [Hin ->]] Hne] (added & Hreqs & Hall).
    exists (added ++ [ask_request args (model args) (strip s) st']); split.
    + rewrite ask_requests, Hreqs, <- app_assoc; reflexivity.
    + apply Forall_app; split; [exact Hall|].
      constructor; [|constructor].
      destruct (strip_spec s) as (pre & post & _ & _ & _ & Hfirst & Hlast).
      exists (history st'), (strip s); repeat split; eauto.
  - intros s Hin Hne; split; eauto.
  - exists []; split; [now rewrite app_nil_r | constructor].
Qed.

(** ** Trace mode and malformed tool events *)

(** X15: [--trace] can turn a complete exchange into a failed one.  A
    tool-call begin event without a [tool] attribute is skipped without
    trace mode; with it, the banner is written, the lookup of the tool name
    raises, and the exchange ends with the error report, the empty string
    and no assistant turn. *)
Theorem trace_can_fail_exchange (args : Args) (client : Request -> Script)
    (model_ user_text : pystr) (st : State) (sc : Script)
    (pre : list Item) (event : Event) (post : list Item) :
  client (ask_request args model_ user_text st) = sc ->
  sc_open sc = None ->
  sc_items sc = pre ++ Yield event :: post ->
  lr_exit (event_loop (trace args) pre) = Exhausted ->
  is_variant ToolBegin event = true ->
  assoc "tool" event = None ->
  trace args = true ->
  handle_event false event = ([], inr Continue)
  /\ ask args client model_ user_text st =
     ({| history := history st ++ [user_turn user_text];
         out := (out st ++ ask_header)
                ++ (lr_out (event_loop true pre)
                    ++ [OBar "Tool Call Begin" FG_YELLOW])
                ++ error_report (AttributeError "tool");
         requests := requests st ++ [ask_request args model_ user_text st] |},
      inr []).
Proof.
  intros Hsc Hopen Hitems Hpre Hv Htool Htrace; split.
  - rewrite (handle_tool_event false ToolBegin event Hv); reflexivity.
  - apply ask_on_failure; [|reflexivity | reflexivity].
    rewrite Hsc; unfold try_body; rewrite Hopen, Hitems.
    rewrite (event_loop_app _ _ _ Hpre); cbn [event_loop].
    rewrite Htrace, (handle_tool_event true ToolBegin event Hv).
    unfold on_tool_begin, getattr; rewrite Htool; reflexivity.
Qed.

Lemma trace_can_fail_exchange_witness :
  snd (ask trace_args (fun _ => unnamed_tool_script) (str "gpt-5-mini")
         (str "q") init_state) = inr []
  /\ snd (ask default_args (fun _ => unnamed_tool_script) (str "gpt-5-mini")
            (str "q") init_state) = inr (str "Hello!").
Proof.
  split; [|reflexivity].
  rewrite (proj2 (trace_can_fail_exchange trace_args
                    (fun _ => unnamed_tool_script) (str "gpt-5-mini")
                    (str "q") init_state unnamed_tool_script []
                    ev_begin_unnamed [Yield (ev_text_delta "Hello!")]
                    eq_refl eq_refl eq_refl eq_refl eq_refl eq_refl eq_refl)).
  reflexivity.
Defined.
